(** * Extension authentication hand-off: the sample backend

    A shallow embedding of [backend-sample/ext_auth_endpoints.py]: the
    in-memory store [InMemoryAuthStore], and the two FastAPI handlers
    [get_extension_auth_status] and [complete_extension_auth] that talk
    to a Redis client.

    Python dictionaries are finite maps ([gmap]) with string keys.
    Instants are integers: a [datetime] is its number of microseconds
    since 0001-01-01T00:00:00, a [timedelta] a number of microseconds.
    Every call of [datetime.utcnow()] is an explicit argument of the
    operation that makes it, in the order the calls are made. *)

From Stdlib Require Import ZArith Ascii.
From stdpp Require Import base decidable option list strings gmap fin_maps.

Local Open Scope string_scope.
Local Open Scope Z_scope.
Local Set Warnings "-register-all".

(** ** Results of fallible code *)

(** A call either returns or raises; [E] is the type of what it can
    raise. *)
Inductive result (E A : Type) : Type :=
  | Return (a : A)
  | Raise (e : E).
Arguments Return {E A} a.
Arguments Raise {E A} e.

Definition result_bind {E A B} (r : result E A) (k : A → result E B) :
    result E B :=
  match r with
  | Return a => k a
  | Raise e => Raise e
  end.

(** The one exception of [datetime] arithmetic. *)
Inductive arith_error : Type := OverflowError.

(** ** [datetime] and [timedelta] *)

Module timedelta.
Definition MAX_DELTA_DAYS : Z := 999999999.

(** [timedelta(seconds=n)] for an integer [n]: the day count of the
    normalised value is [n // 86400], and a magnitude above
    [MAX_DELTA_DAYS] raises [OverflowError]. *)
Definition of_seconds (n : Z) : result arith_error Z :=
  if bool_decide (Z.abs (n `div` 86400) ≤ MAX_DELTA_DAYS)
  then Return (n * 1000000)
  else Raise OverflowError.

End timedelta.

Module datetime.
(** [date.max.toordinal()] *)
Definition MAXORDINAL : Z := 3652059.

(** [datetime.max], 9999-12-31T23:59:59.999999 *)
Definition max : Z := MAXORDINAL * 86400000000 - 1.

Definition valid (d : Z) : Prop := 0 ≤ d ≤ max.

(** [d + delta]: a result outside [datetime.min .. datetime.max]
    raises [OverflowError]. *)
Definition add (d delta : Z) : result arith_error Z :=
  if bool_decide (0 ≤ d + delta ≤ max)
  then Return (d + delta)
  else Raise OverflowError.
End datetime.

(** ** [InMemoryAuthStore] *)

Module InMemoryAuthStore.
Section store.
Context {V : Type}.

Record t : Type := Build {
  store : gmap string V;
  expiry : gmap string Z
}.

Definition __init__ : t := {| store := ∅; expiry := ∅ |}.

(** [self.store.pop(key, None); self.expiry.pop(key, None)] *)
Definition delete (key : string) (self : t) : t :=
  {| store := base.delete key (store self);
     expiry := base.delete key (expiry self) |}.

(** [[k for k, exp in self.expiry.items() if exp < now]] *)
Definition expired_keys (now : Z) (self : t) : list string :=
  (filter (λ kv : string * Z, kv.2 < now) (map_to_list (expiry self))).*1.

Definition _cleanup_expired (now : Z) (self : t) : t :=
  foldl (λ s key, delete key s) self (expired_keys now self).

(** [set]: the payload mapping is written first; the expiry instant is
    computed next and may raise, which leaves the first write in place.
    [now1] is the clock read of the expiry computation, [now2] the one
    of the sweep.  A caller that omits [ttl_seconds] passes 300. *)
Definition set (key : string) (value : V) (ttl_seconds : Z)
    (now1 now2 : Z) (self : t) : result arith_error unit * t :=
  let self1 := {| store := <[key := value]> (store self);
                  expiry := expiry self |} in
  match result_bind (timedelta.of_seconds ttl_seconds) (datetime.add now1) with
  | Raise e => (Raise e, self1)
  | Return exp =>
      let self2 := {| store := store self1;
                      expiry := <[key := exp]> (expiry self1) |} in
      (Return (), _cleanup_expired now2 self2)
  end.

(** [get]: [now1] is the clock read of the sweep, [now2] the one of the
    comparison with the key's expiry. *)
Definition get (key : string) (now1 now2 : Z) (self : t) : option V * t :=
  let self' := _cleanup_expired now1 self in
  (match store self' !! key, expiry self' !! key with
   | Some value, Some exp =>
       if bool_decide (now2 < exp) then Some value else None
   | _, _ => None
   end, self').

End store.
Arguments t : clear implicits.
End InMemoryAuthStore.

(** ** Values exchanged with the handlers *)

(** What [json.loads] can produce and [json.dumps] accepts, which is also
    what a handler returns.  A [dict] keeps its items in insertion order,
    with one item per key.  A Python [float] is carried as the bit
    pattern of its binary64 value; the code never inspects one. *)
Inductive json : Type :=
  | JNone
  | JBool (b : bool)
  | JInt (n : Z)
  | JFloat (bits : Z)
  | JStr (s : string)
  | JList (items : list json)
  | JDict (items : list (string * json)).

(** What the handlers' [try] blocks can raise.  [RedisError] stands for
    any exception of the Redis client; [ValueError] and [RecursionError]
    are those of the JSON encoder and decoder on an integer of too many
    digits and on a value nested too deep.  The text is that of
    [str(e)]. *)
Inductive exn : Type :=
  | RedisError (msg : string)
  | JSONDecodeError (msg : string)
  | KeyError (key : string)
  | TypeError (msg : string)
  | ValueError (msg : string)
  | RecursionError (msg : string).

(** [str(e)]; a [KeyError] shows the [repr] of its key, and the keys used
    here are plain identifiers. *)
Definition str_exn (e : exn) : string :=
  match e with
  | RedisError msg | JSONDecodeError msg | TypeError msg
  | ValueError msg | RecursionError msg => msg
  | KeyError key => "'" ++ key ++ "'"
  end.

Record HTTPException : Type := {
  status_code : Z;
  detail : string
}.

Fixpoint dict_lookup (key : string) (items : list (string * json)) : option json :=
  match items with
  | [] => None
  | (k, v) :: items' => if bool_decide (k = key) then Some v else dict_lookup key items'
  end.

(** [value[key]] for a string [key], with the texts of CPython 3.11 *)
Definition subscript (value : json) (key : string) : result exn json :=
  match value with
  | JDict items =>
      match dict_lookup key items with
      | Some v => Return v
      | None => Raise (KeyError key)
      end
  | JList _ => Raise (TypeError "list indices must be integers or slices, not str")
  | JStr _ => Raise (TypeError "string indices must be integers, not 'str'")
  | JNone => Raise (TypeError "'NoneType' object is not subscriptable")
  | JBool _ => Raise (TypeError "'bool' object is not subscriptable")
  | JInt _ => Raise (TypeError "'int' object is not subscriptable")
  | JFloat _ => Raise (TypeError "'float' object is not subscriptable")
  end.

(** The pieces of the Python library that the handlers call and whose
    code is not part of the repository.  Both [json.dumps] and
    [json.loads] return or raise. *)
Class PyLib : Type := {
  json_dumps : json → result exn string;
  json_loads : string → result exn json;
  isoformat : Z → string
}.

(** ** The Redis server behind [redis_client]

    The client and the server are not part of the repository.  The three
    commands that the handlers send are modelled after the Redis command
    reference: [GET] reads a key that has not expired, [DEL] removes a
    key, [SETEX] writes a key that expires after the given seconds.  Any
    command may instead raise in the client, before it reaches the
    server. *)

Module redis.
(** The keyspace: a value and the instant, in milliseconds of the
    server's clock, at which the key expires. *)
Abbreviation db := (gmap string (string * Z)).

(** A handler runs against the keyspace and may raise. *)
Definition M (A : Type) : Type := db → result exn A * db.

Definition ret {A} (a : A) : M A := λ r, (Return a, r).
Definition raise {A} (e : exn) : M A := λ r, (Raise e, r).
Definition bind {A B} (m : M A) (k : A → M B) : M B :=
  λ r, match m r with
       | (Return a, r') => k a r'
       | (Raise e, r') => (Raise e, r')
       end.
Definition lift {A} (x : result exn A) : M A := λ r, (x, r).

(** [try: body / except Exception as e: handler e] *)
Definition try_except {A} (body : M A) (handler : exn → M A) : M A :=
  λ r, match body r with
       | (Return a, r') => (Return a, r')
       | (Raise e, r') => handler e r'
       end.

(** A command either reaches the server or fails in the client with
    the given text (connection refused, time-out, ...). *)
Definition fault := option string.

(** A key is gone once the server's clock is past its expiry. *)
Definition lookup_live (now : Z) (key : string) (r : db) : option string :=
  match r !! key with
  | Some (value, expire_at) =>
      if bool_decide (now ≤ expire_at) then Some value else None
  | None => None
  end.

(** [GET key], with [decode_responses=True] *)
Definition get (f : fault) (now : Z) (key : string) : M (option string) :=
  match f with
  | Some msg => raise (RedisError msg)
  | None => λ r, (Return (lookup_live now key r), r)
  end.

(** [DEL key] *)
Definition delete (f : fault) (key : string) : M unit :=
  match f with
  | Some msg => raise (RedisError msg)
  | None => λ r, (Return (), base.delete key r)
  end.

(** [SETEX key seconds value] *)
Definition setex (f : fault) (now : Z) (key : string) (seconds : Z)
    (value : string) : M unit :=
  match f with
  | Some msg => raise (RedisError msg)
  | None => λ r, (Return (), <[key := (value, now + seconds * 1000)]> r)
  end.
End redis.

Notation "'let*' x ':=' m 'in' k" := (redis.bind m (λ x, k))
  (at level 10, x name, m at level 100, k at level 200, only parsing).

(** ** The handlers *)

(** [ExtAuthComplete] *)
Record ExtAuthComplete : Type := {
  session_id : string;
  clerk_token : string;
  user_data : json
}.

(** What happens around one call of the status handler: the server's
    clock at the [GET], and whether each command fails. *)
Record status_env : Type := {
  get_now : Z;
  get_fault : redis.fault;
  delete_fault : redis.fault
}.

(** What happens around one call of the completion handler: the value of
    [datetime.utcnow()], the server's clock at the [SETEX], and whether
    the command fails. *)
Record complete_env : Type := {
  utcnow : Z;
  setex_now : Z;
  setex_fault : redis.fault
}.

Definition env_ok (now : Z) : status_env :=
  {| get_now := now; get_fault := None; delete_fault := None |}.

Section handlers.
Context {lib : PyLib}.

Definition cache_key_of (session_id : string) : string :=
  "ext_auth:" ++ session_id.

(** [not cached_data] *)
Definition falsy (cached_data : option string) : bool :=
  match cached_data with
  | None => true
  | Some s => bool_decide (s = "")
  end.

Definition pending_body : json :=
  JDict [("success", JBool true);
         ("result", JDict [("status", JStr "pending")]);
         ("message", JStr "Authentication pending")].

Definition completed_body (token data : json) : json :=
  JDict [("success", JBool true);
         ("result", JDict [("status", JStr "completed");
                           ("clerk_token", token);
                           ("user_data", data)]);
         ("message", JStr "Authentication completed successfully")].

Definition status_error_body (e : exn) : json :=
  JDict [("success", JBool false);
         ("result", JNone);
         ("message", JStr ("Error checking auth status: " ++ str_exn e));
         ("status_code", JInt 500)].

Definition get_extension_auth_status (env : status_env) (session_id : string) :
    redis.M json :=
  redis.try_except
    (let cache_key := cache_key_of session_id in
     let* cached_data := redis.get (get_fault env) (get_now env) cache_key in
     if falsy cached_data then redis.ret pending_body
     else
       let* auth_data := redis.lift (json_loads (default "" cached_data)) in
       let* _ := redis.delete (delete_fault env) cache_key in
       let* token := redis.lift (subscript auth_data "clerk_token") in
       let* data := redis.lift (subscript auth_data "user_data") in
       redis.ret (completed_body token data))
    (λ e, redis.ret (status_error_body e)).

Definition cache_data_of (env : complete_env) (request : ExtAuthComplete) : json :=
  JDict [("clerk_token", JStr (clerk_token request));
         ("user_data", user_data request);
         ("timestamp", JStr (isoformat (utcnow env)))].

Definition stored_body (request : ExtAuthComplete) : json :=
  JDict [("success", JBool true);
         ("result", JDict [("session_id", JStr (session_id request));
                           ("status", JStr "stored")]);
         ("message", JStr "Authentication data stored successfully");
         ("status_code", JInt 200)].

(** The handler returns a body or raises [HTTPException].  The
    arguments of [setex] are evaluated before the call, so that
    [json.dumps] runs, and may raise, before the command is sent. *)
Definition complete_extension_auth (env : complete_env)
    (request : ExtAuthComplete) (r : redis.db) :
    result HTTPException json * redis.db :=
  let body : redis.M json :=
    let cache_key := cache_key_of (session_id request) in
    let cache_data := cache_data_of env request in
    let* text := redis.lift (json_dumps cache_data) in
    let* _ := redis.setex (setex_fault env) (setex_now env) cache_key (5 * 60)
          text in
    redis.ret (stored_body request) in
  match body r with
  | (Return b, r') => (Return b, r')
  | (Raise e, r') =>
      (Raise {| status_code := 500;
                detail := "Failed to store auth data: " ++ str_exn e |}, r')
  end.
End handlers.

(** ** Vocabulary of the properties *)

Section store_vocabulary.
Context {V : Type}.
Import InMemoryAuthStore.

(** The two mappings have the same keys. *)
Definition keys_agree (self : t V) : Prop :=
  dom (store self) = dom (expiry self).

(** Every key with an expiry instant has a payload. *)
Definition expiry_within_store (self : t V) : Prop :=
  dom (expiry self) ⊆ dom (store self).

(** One call on a store, with the clock reads it makes. *)
Inductive op : Type :=
  | Set_ (key : string) (value : V) (ttl_seconds now1 now2 : Z)
  | Get (key : string) (now1 now2 : Z)
  | Delete (key : string)
  | Cleanup (now : Z).

Definition step (o : op) (self : t V) : t V :=
  match o with
  | Set_ key value ttl_seconds now1 now2 =>
      (set key value ttl_seconds now1 now2 self).2
  | Get key now1 now2 => (get key now1 now2 self).2
  | Delete key => delete key self
  | Cleanup now => _cleanup_expired now self
  end.

(** The store after a history of calls, oldest first. *)
Definition run (ops : list op) (self : t V) : t V :=
  foldl (λ s o, step o s) self ops.

(** The call returns instead of raising. *)
Definition returns (o : op) (self : t V) : Prop :=
  match o with
  | Set_ key value ttl_seconds now1 now2 =>
      (set key value ttl_seconds now1 now2 self).1 = Return ()
  | _ => True
  end.

(** The call stores something under [key]. *)
Definition writes (key : string) (o : op) : Prop :=
  match o with
  | Set_ key' _ _ _ _ => key' = key
  | _ => False
  end.
End store_vocabulary.
Arguments op : clear implicits.

(** [body[name]] of a response, when it has that key *)
Definition field (name : string) (body : json) : option json :=
  match body with
  | JDict items => dict_lookup name items
  | _ => None
  end.

(** [body["result"]["status"]] of a response *)
Definition status_of (body : json) : option string :=
  match body with
  | JDict items =>
      match dict_lookup "result" items with
      | Some (JDict res) =>
          match dict_lookup "status" res with
          | Some (JStr s) => Some s
          | _ => None
          end
      | _ => None
      end
  | _ => None
  end.

(** A body of shape [{success: false, message, status_code: 500}] *)
Definition is_failure_body (body : json) : Prop :=
  match body with
  | JDict items =>
      dict_lookup "success" items = Some (JBool false)
      ∧ (∃ msg, dict_lookup "message" items = Some (JStr msg))
      ∧ dict_lookup "status_code" items = Some (JInt 500)
  | _ => False
  end.

(** ** A sample request and a stand-in for the library

    Used to run the handlers on concrete inputs.  The stand-in knows one
    document only. *)

Definition sample_request : ExtAuthComplete :=
  {| session_id := "sess-1";
     clerk_token := "abc";
     user_data := JDict [("id", JInt 42)] |}.

Definition sample_cache_data : json :=
  JDict [("clerk_token", JStr "abc");
         ("user_data", JDict [("id", JInt 42)]);
         ("timestamp", JStr "2026-01-01T00:00:00")].

Definition dq : string := String "034"%char "".

Definition sample_text : string :=
  "{" ++ dq ++ "clerk_token" ++ dq ++ ": " ++ dq ++ "abc" ++ dq ++ ", "
  ++ dq ++ "user_data" ++ dq ++ ": {" ++ dq ++ "id" ++ dq ++ ": 42}, "
  ++ dq ++ "timestamp" ++ dq ++ ": " ++ dq ++ "2026-01-01T00:00:00" ++ dq ++ "}".

Definition sample_lib : PyLib :=
  {| json_dumps := λ _, Return sample_text;
     json_loads := λ s,
       if bool_decide (s = sample_text) then Return sample_cache_data
       else Raise (JSONDecodeError "Expecting value: line 1 column 1 (char 0)");
     isoformat := λ _, "2026-01-01T00:00:00" |}.

(** The handlers, run with the stand-in *)
Local Abbreviation status := (get_extension_auth_status (lib := sample_lib)).
Local Abbreviation complete := (complete_extension_auth (lib := sample_lib)).

(** 2026-01-01T00:00:00, in microseconds since 0001-01-01T00:00:00, and
    the same instant in milliseconds of the Unix epoch. *)
Definition t2026 : Z := 63902822400000000.
Definition ms2026 : Z := 1767225600000.

(** Five minutes after [t2026] *)
Definition five_minutes_later : Z := t2026 + 300 * 1000000.

(** The keyspace once the sample request is stored at [ms2026] *)
Definition sample_db : redis.db :=
  {[ "ext_auth:sess-1" := (sample_text, ms2026 + 300000) ]}.

Definition sample_complete_env (f : redis.fault) : complete_env :=
  {| utcnow := t2026; setex_now := ms2026; setex_fault := f |}.

(** A stand-in whose encoder rejects every value, as [json.dumps] does
    an integer of more than 4300 digits *)
Definition rejecting_lib : PyLib :=
  {| json_dumps := λ _,
       Raise (ValueError "Exceeds the limit (4300 digits) for integer string conversion");
     json_loads := λ _,
       Raise (JSONDecodeError "Expecting value: line 1 column 1 (char 0)");
     isoformat := λ _, "2026-01-01T00:00:00" |}.

(** A stand-in whose decoder answers the empty dictionary *)
Definition empty_dict_lib : PyLib :=
  {| json_dumps := λ _, Return "{}";
     json_loads := λ _, Return (JDict []);
     isoformat := λ _, "2026-01-01T00:00:00" |}.

(** Keyspaces whose entry for the sample session is not a JSON text, is
    the text of the empty dictionary, is the empty text *)
Definition garbled_db : redis.db :=
  {[ "ext_auth:sess-1" := ("not json", ms2026 + 300000) ]}.
Definition empty_dict_db : redis.db :=
  {[ "ext_auth:sess-1" := ("{}", ms2026 + 300000) ]}.
Definition empty_text_db : redis.db :=
  {[ "ext_auth:sess-1" := ("", ms2026 + 300000) ]}.


(** A store that holds the sample payload until [five_minutes_later] *)
Definition sample_store : InMemoryAuthStore.t json :=
  {| InMemoryAuthStore.store := {[ "sess-1" := sample_cache_data ]};
     InMemoryAuthStore.expiry := {[ "sess-1" := five_minutes_later ]} |}.

(** A store just constructed, for JSON payloads *)
Definition fresh : InMemoryAuthStore.t json := InMemoryAuthStore.__init__.

(** * Properties *)

(** ** The sweep *)

Section sweep.
Context {V : Type}.
Implicit Types (self : InMemoryAuthStore.t V) (key k j : string).

Import InMemoryAuthStore.

Lemma store_delete_list self (keys : list string) j :
  store (foldl (λ s key, delete key s) self keys) !! j
  = if decide (j ∈ keys) then None else store self !! j.
Proof.
  revert self. induction keys as [|k keys IH]; intros self; cbn [foldl].
  - rewrite decide_False; [done | apply not_elem_of_nil].
  - rewrite IH. cbn [delete store expiry].
    destruct (decide (j ∈ keys)) as [Hin|Hout].
    + rewrite decide_True; [done | by right].
    + destruct (decide (j = k)) as [->|Hne].
      * rewrite decide_True; [apply lookup_delete_eq | by left].
      * rewrite decide_False; [by apply lookup_delete_ne|].
        intros [?|?]%elem_of_cons; done.
Qed.

Lemma expiry_delete_list self (keys : list string) j :
  expiry (foldl (λ s key, delete key s) self keys) !! j
  = if decide (j ∈ keys) then None else expiry self !! j.
Proof.
  revert self. induction keys as [|k keys IH]; intros self; cbn [foldl].
  - rewrite decide_False; [done | apply not_elem_of_nil].
  - rewrite IH. cbn [delete store expiry].
    destruct (decide (j ∈ keys)) as [Hin|Hout].
    + rewrite decide_True; [done | by right].
    + destruct (decide (j = k)) as [->|Hne].
      * rewrite decide_True; [apply lookup_delete_eq | by left].
      * rewrite decide_False; [by apply lookup_delete_ne|].
        intros [?|?]%elem_of_cons; done.
Qed.

Lemma elem_of_expired_keys now self k :
  k ∈ expired_keys now self ↔ ∃ exp, expiry self !! k = Some exp ∧ exp < now.
Proof.
  unfold expired_keys. rewrite list_elem_of_fmap. split.
  - intros [[k' exp] [-> [Hlt Hin%elem_of_map_to_list]%list_elem_of_filter]].
    eauto.
  - intros (exp & Hk & Hlt). exists (k, exp). split; [done|].
    apply list_elem_of_filter. split; [done | by apply elem_of_map_to_list].
Qed.

Lemma cleanup_store now self j :
  store (_cleanup_expired now self) !! j
  = match expiry self !! j with
    | Some exp => if bool_decide (exp < now) then None else store self !! j
    | None => store self !! j
    end.
Proof.
  unfold _cleanup_expired. rewrite store_delete_list.
  destruct (expiry self !! j) as [exp|] eqn:Hj.
  - case_bool_decide as Hlt.
    + rewrite decide_True; [done|]. apply elem_of_expired_keys. eauto.
    + rewrite decide_False; [done|].
      intros (exp' & Hk & ?)%elem_of_expired_keys. congruence.
  - rewrite decide_False; [done|].
    intros (exp' & Hk & ?)%elem_of_expired_keys. congruence.
Qed.

Lemma cleanup_expiry now self j :
  expiry (_cleanup_expired now self) !! j
  = match expiry self !! j with
    | Some exp => if bool_decide (exp < now) then None else Some exp
    | None => None
    end.
Proof.
  unfold _cleanup_expired. rewrite expiry_delete_list.
  destruct (expiry self !! j) as [exp|] eqn:Hj.
  - case_bool_decide as Hlt.
    + rewrite decide_True; [done|]. apply elem_of_expired_keys. eauto.
    + rewrite decide_False; [done|].
      intros (exp' & Hk & ?)%elem_of_expired_keys. congruence.
  - rewrite decide_False; [done|].
    intros (exp' & Hk & ?)%elem_of_expired_keys. congruence.
Qed.
End sweep.

(** ** The expiry instant computed by [set] *)

Lemma expiry_instant_ok ttl now :
  0 < ttl → datetime.valid now → now + ttl * 1000000 ≤ datetime.max →
  result_bind (timedelta.of_seconds ttl) (datetime.add now)
  = Return (now + ttl * 1000000).
Proof.
  unfold datetime.valid, datetime.max, datetime.MAXORDINAL.
  intros Httl [Hlo Hhi] Hmax.
  unfold timedelta.of_seconds, timedelta.MAX_DELTA_DAYS.
  rewrite bool_decide_eq_true_2.
  - cbn [result_bind]. unfold datetime.add, datetime.max, datetime.MAXORDINAL.
    rewrite bool_decide_eq_true_2; [done | lia].
  - assert (0 ≤ ttl `div` 86400 ≤ 3652059) as Hdays.
    { split; [apply Z.div_pos; lia|].
      apply Z.div_le_upper_bound; lia. }
    lia.
Qed.

Lemma expiry_instant_inv ttl now exp :
  result_bind (timedelta.of_seconds ttl) (datetime.add now) = Return exp →
  exp = now + ttl * 1000000 ∧ datetime.valid exp.
Proof.
  unfold timedelta.of_seconds, datetime.add, datetime.valid.
  case_bool_decide; cbn [result_bind]; [|discriminate].
  case_bool_decide; [|discriminate].
  intros [= <-]. done.
Qed.

Section store_facts.
Context {V : Type}.
Implicit Types (self : InMemoryAuthStore.t V) (key k j : string) (value : V).

Import InMemoryAuthStore.

Lemma set_returns_inv key value ttl now1 now2 self self' :
  set key value ttl now1 now2 self = (Return (), self') →
  result_bind (timedelta.of_seconds ttl) (datetime.add now1)
  = Return (now1 + ttl * 1000000)
  ∧ self' = _cleanup_expired now2
              {| store := <[key := value]> (store self);
                 expiry := <[key := now1 + ttl * 1000000]> (expiry self) |}.
Proof.
  unfold set.
  destruct (result_bind _ _) as [exp|e] eqn:Hexp; [|discriminate].
  apply expiry_instant_inv in Hexp as Hval. destruct Hval as [-> _].
  intros [= <-]. done.
Qed.

(** What [get] answers, from the mappings before the call. *)
Lemma get_result key now1 now2 self :
  (get key now1 now2 self).1
  = match store self !! key, expiry self !! key with
    | Some value, Some exp =>
        if bool_decide (now1 ≤ exp ∧ now2 < exp) then Some value else None
    | _, _ => None
    end.
Proof.
  unfold get. cbn [fst]. rewrite cleanup_store, cleanup_expiry.
  destruct (store self !! key) as [value|], (expiry self !! key) as [exp|];
    repeat case_bool_decide; try done; lia.
Qed.

Lemma get_state key now1 now2 self :
  (get key now1 now2 self).2 = _cleanup_expired now1 self.
Proof. done. Qed.

(** The sweep keeps an entry whose expiry instant is not before [now]. *)
Lemma cleanup_keeps now self j exp :
  expiry self !! j = Some exp → now ≤ exp →
  store (_cleanup_expired now self) !! j = store self !! j
  ∧ expiry (_cleanup_expired now self) !! j = Some exp.
Proof.
  intros Hj Hle. rewrite cleanup_store, cleanup_expiry, Hj.
  rewrite bool_decide_eq_false_2; [done | lia].
Qed.

(** The sweep drops an entry whose expiry instant is before [now]. *)
Lemma cleanup_drops now self j exp :
  expiry self !! j = Some exp → exp < now →
  store (_cleanup_expired now self) !! j = None
  ∧ expiry (_cleanup_expired now self) !! j = None.
Proof.
  intros Hj Hlt. rewrite cleanup_store, cleanup_expiry, Hj.
  by rewrite bool_decide_eq_true_2.
Qed.

Lemma cleanup_store_None now self j :
  store self !! j = None → store (_cleanup_expired now self) !! j = None.
Proof.
  intros Hj. rewrite cleanup_store, Hj.
  destruct (expiry self !! j); [by case_bool_decide | done].
Qed.
End store_facts.

(** ** Writing, then reading *)

Section read_your_writes.
Context {V : Type}.
Implicit Types (self : InMemoryAuthStore.t V) (key k j : string) (value p : V).

Import InMemoryAuthStore.

(** C2, as amended: for a time to live [ttl_seconds > 0] whose expiry
    instant [utcnow() + ttl_seconds] is still a [datetime] (not after
    [datetime.max]), [set(key, p, ttl_seconds)] returns, and a [get(key)]
    whose clock reads are before that instant returns [p]. *)
Theorem set_then_get self key p ttl now1 now2 now3 now4 :
  0 < ttl →
  datetime.valid now1 →
  now1 + ttl * 1000000 ≤ datetime.max →
  now2 ≤ now1 + ttl * 1000000 →
  now3 ≤ now1 + ttl * 1000000 →
  now4 < now1 + ttl * 1000000 →
  (set key p ttl now1 now2 self).1 = Return ()
  ∧ (get key now3 now4 (set key p ttl now1 now2 self).2).1 = Some p.
Proof.
  intros Httl Hnow Hmax H2 H3 H4.
  unfold set. rewrite expiry_instant_ok by done. cbn [fst snd].
  split; [done|].
  rewrite get_result.
  edestruct (cleanup_keeps (V:=V) now2) as [-> ->];
    [apply lookup_insert_eq | done |].
  cbn [store]. rewrite lookup_insert_eq.
  rewrite bool_decide_eq_true_2; [done | lia].
Qed.

(** C4: once the clock has passed the expiry instant stored for [key],
    [get(key)] returns [None], whatever was or was not deleted; in
    particular after a [set(key, p, ttl_seconds)] that returned, for the
    instant [utcnow() + ttl_seconds] of that call.  The sweep of that
    [get] has then removed the key from both mappings. *)
Theorem get_after_expiry self key now3 now4 :
  (∀ exp, expiry self !! key = Some exp → exp < now3 → exp < now4 →
     (get key now3 now4 self).1 = None
     ∧ store (get key now3 now4 self).2 !! key = None
     ∧ expiry (get key now3 now4 self).2 !! key = None)
  ∧ (∀ p ttl now1 now2 self1,
       set key p ttl now1 now2 self = (Return (), self1) →
       now1 + ttl * 1000000 < now3 → now1 + ttl * 1000000 < now4 →
       (get key now3 now4 self1).1 = None).
Proof.
  split.
  - intros exp Hexp H3 H4. rewrite get_result, get_state, Hexp.
    destruct (cleanup_drops now3 self key exp) as [-> ->]; [done..|].
    split; [|done].
    destruct (store self !! key); [|done].
    rewrite bool_decide_eq_false_2; [done | lia].
  - intros p ttl now1 now2 self1 [_ ->]%set_returns_inv H3 H4.
    rewrite get_result, cleanup_store, cleanup_expiry. cbn [store expiry].
    rewrite !lookup_insert_eq.
    case_bool_decide; [done|].
    rewrite bool_decide_eq_false_2; [done | lia].
Qed.

(** C10: when the clock reads exactly the expiry instant stored for
    [key], [get(key)] returns [None], although the sweep, which drops
    only instants strictly before the clock, leaves the entry in both
    mappings; one microsecond earlier the payload is still returned. *)
Theorem get_at_expiry self key exp :
  expiry self !! key = Some exp →
  (get key exp exp self).1 = None
  ∧ (key ∉ expired_keys exp self)
  ∧ store (get key exp exp self).2 !! key = store self !! key
  ∧ expiry (get key exp exp self).2 !! key = Some exp
  ∧ (∀ p, store self !! key = Some p →
       (get key (exp - 1) (exp - 1) self).1 = Some p).
Proof.
  intros Hexp. rewrite get_state.
  destruct (cleanup_keeps exp self key exp) as [Hs He]; [done | lia |].
  repeat split; [| |done..|].
  - rewrite get_result, Hexp. destruct (store self !! key); [|done].
    rewrite bool_decide_eq_false_2; [done | lia].
  - intros (exp' & Hexp' & Hlt)%elem_of_expired_keys.
    rewrite Hexp in Hexp'. injection Hexp' as <-. lia.
  - intros p Hp. rewrite get_result, Hexp, Hp.
    rewrite bool_decide_eq_true_2; [done | lia].
Qed.

(** C8: let [j] hold an entry whose expiry instant is not before any
    clock read of the call.  Then [set(k, p, ttl_seconds)], whether it
    returns or raises, [get(k)] and [delete(k)] for another key [k] leave
    the payload and the expiry instant of [j] as they were. *)
Theorem other_key_untouched self k j p ttl now1 now2 exp :
  k ≠ j →
  expiry self !! j = Some exp →
  now1 ≤ exp → now2 ≤ exp →
  (store (set k p ttl now1 now2 self).2 !! j = store self !! j
   ∧ expiry (set k p ttl now1 now2 self).2 !! j = Some exp)
  ∧ (store (get k now1 now2 self).2 !! j = store self !! j
     ∧ expiry (get k now1 now2 self).2 !! j = Some exp)
  ∧ (store (delete k self) !! j = store self !! j
     ∧ expiry (delete k self) !! j = Some exp).
Proof.
  intros Hne Hexp H1 H2.
  destruct (cleanup_keeps now1 self j exp Hexp H1) as [Hs He].
  repeat apply conj.
  - unfold set. destruct (result_bind _ _) as [exp'|e]; cbn [snd store].
    + rewrite cleanup_store. cbn [store expiry].
      rewrite !lookup_insert_ne, Hexp by done.
      rewrite bool_decide_eq_false_2; [done | lia].
    + by rewrite lookup_insert_ne.
  - unfold set. destruct (result_bind _ _) as [exp'|e]; cbn [snd expiry].
    + rewrite cleanup_expiry. cbn [expiry].
      rewrite !lookup_insert_ne, Hexp by done.
      rewrite bool_decide_eq_false_2; [done | lia].
    + done.
  - by rewrite get_state.
  - by rewrite get_state.
  - cbn [delete store]. by rewrite lookup_delete_ne.
  - cbn [delete expiry]. by rewrite lookup_delete_ne.
Qed.
End read_your_writes.

(** ** Overwriting *)

Section last_write_wins.
Context {V : Type}.
Implicit Types (self : InMemoryAuthStore.t V) (key k j : string) (value p : V).

Import InMemoryAuthStore.

(** After [set(key, p, ...)], returned or raised, the payload of [key]
    is [p], or the sweep of that call has removed the key. *)
Lemma set_payload self key p ttl now1 now2 :
  let self' := (set key p ttl now1 now2 self).2 in
  store self' !! key = Some p
  ∨ (store self' !! key = None ∧ expiry self' !! key = None).
Proof.
  unfold set. destruct (result_bind _ _) as [exp|e]; cbn [snd].
  - rewrite cleanup_store, cleanup_expiry. cbn [store expiry].
    rewrite !lookup_insert_eq. case_bool_decide; auto.
  - cbn [store]. rewrite lookup_insert_eq. auto.
Qed.

(** C6: after [set(key, p1, ttl)] and then [set(key, p2, ttl)], a
    [get(key)] returns [p2] or nothing, never the overwritten [p1];
    before the expiry instant stored for [key] it returns [p2], and does
    so again on the next call since the entry stays; and when the second
    call returns and its sweep runs before the new expiry instant, [key]
    has the one payload [p2] and the one expiry instant of that call. *)
Theorem set_twice self key p1 p2 ttl a1 a2 b1 b2 c1 c2 :
  let second := set key p2 ttl b1 b2 (set key p1 ttl a1 a2 self).2 in
  ((get key c1 c2 second.2).1 = Some p2 ∨ (get key c1 c2 second.2).1 = None)
  ∧ (∀ exp, expiry second.2 !! key = Some exp → c1 ≤ exp → c2 < exp →
       (get key c1 c2 second.2).1 = Some p2
       ∧ store (get key c1 c2 second.2).2 !! key = Some p2
       ∧ expiry (get key c1 c2 second.2).2 !! key = Some exp)
  ∧ (second.1 = Return () → b2 ≤ b1 + ttl * 1000000 →
       store second.2 !! key = Some p2
       ∧ expiry second.2 !! key = Some (b1 + ttl * 1000000)).
Proof.
  intros second. subst second.
  set (self1 := (set key p1 ttl a1 a2 self).2).
  pose proof (set_payload self1 key p2 ttl b1 b2) as Hp. cbn zeta in Hp.
  repeat apply conj.
  - rewrite get_result.
    destruct Hp as [-> | [-> _]]; [|auto].
    destruct (expiry _ !! key); [case_bool_decide|]; auto.
  - intros exp Hexp H1 H2.
    destruct Hp as [Hs | [_ He]]; [|congruence].
    rewrite get_result, get_state, Hs, Hexp.
    rewrite bool_decide_eq_true_2 by lia. split; [done|].
    destruct (cleanup_keeps c1 _ key exp Hexp H1) as [-> ->]. done.
  - intros Hret Hb2.
    destruct (set key p2 ttl b1 b2 self1) as [res self2] eqn:Hset.
    cbn [fst snd] in *. subst res.
    apply set_returns_inv in Hset as [_ ->].
    rewrite cleanup_store, cleanup_expiry. cbn [store expiry].
    rewrite !lookup_insert_eq.
    rewrite bool_decide_eq_false_2; [done | lia].
Qed.
End last_write_wins.

(** ** The two key sets *)

Section key_sets.
Context {V : Type}.
Implicit Types (self : InMemoryAuthStore.t V) (key k j : string) (value p : V).

Import InMemoryAuthStore.

Lemma keys_agree_lookup self :
  keys_agree self ↔ ∀ k, is_Some (store self !! k) ↔ is_Some (expiry self !! k).
Proof.
  unfold keys_agree. rewrite set_eq.
  by setoid_rewrite elem_of_dom.
Qed.

Lemma expiry_within_store_lookup self :
  expiry_within_store self
  ↔ ∀ k, is_Some (expiry self !! k) → is_Some (store self !! k).
Proof.
  unfold expiry_within_store. rewrite elem_of_subseteq.
  by setoid_rewrite elem_of_dom.
Qed.

Lemma cleanup_keys_agree now self :
  keys_agree self → keys_agree (_cleanup_expired now self).
Proof.
  rewrite !keys_agree_lookup. intros Hagree k.
  rewrite cleanup_store, cleanup_expiry. specialize (Hagree k).
  destruct (expiry self !! k) as [exp|]; [case_bool_decide|]; done.
Qed.

Lemma cleanup_expiry_within_store now self :
  expiry_within_store self → expiry_within_store (_cleanup_expired now self).
Proof.
  rewrite !expiry_within_store_lookup. intros Hsub k.
  rewrite cleanup_store, cleanup_expiry. specialize (Hsub k).
  destruct (expiry self !! k) as [exp|]; [case_bool_decide|]; done.
Qed.

Lemma delete_keys_agree key self :
  keys_agree self → keys_agree (delete key self).
Proof.
  unfold keys_agree, delete. cbn [store expiry].
  rewrite !dom_delete_L. by intros ->.
Qed.

Lemma delete_expiry_within_store key self :
  expiry_within_store self → expiry_within_store (delete key self).
Proof.
  unfold expiry_within_store, delete. cbn [store expiry].
  rewrite !dom_delete_L. apply difference_mono_r.
Qed.

(** C9, as amended: the two key sets are equal after construction; every
    key of the expiry mapping is a key of the payload mapping after every
    call, also one that raises; and [get], [delete], [_cleanup_expired]
    and every [set] that returns keep the two key sets equal. *)
Theorem key_sets_kept :
  keys_agree (V:=V) __init__
  ∧ ∀ self (o : op V),
      (expiry_within_store self → expiry_within_store (step o self))
      ∧ (keys_agree self → returns o self → keys_agree (step o self)).
Proof.
  split; [done|].
  intros self [key value ttl now1 now2|key now1 now2|key|now]; cbn [step returns].
  - split.
    + intros Hsub. unfold set.
      destruct (result_bind _ _) as [exp|e]; cbn [snd].
      * apply cleanup_expiry_within_store.
        unfold expiry_within_store in *. cbn [store expiry].
        rewrite !dom_insert_L. by apply union_mono_l.
      * unfold expiry_within_store in *. cbn [store expiry].
        rewrite dom_insert_L. by apply union_subseteq_r'.
    + intros Hagree Hret.
      destruct (set key value ttl now1 now2 self) as [res self'] eqn:Hset.
      cbn [fst snd] in *. subst res.
      apply set_returns_inv in Hset as [_ ->].
      apply cleanup_keys_agree.
      unfold keys_agree in *. cbn [store expiry].
      rewrite !dom_insert_L. by rewrite Hagree.
  - rewrite get_state.
    auto using cleanup_expiry_within_store, cleanup_keys_agree.
  - auto using delete_expiry_within_store, delete_keys_agree.
  - auto using cleanup_expiry_within_store, cleanup_keys_agree.
Qed.
End key_sets.

(** ** A key that was never written *)

Section never_written.
Context {V : Type}.
Implicit Types (self : InMemoryAuthStore.t V) (key k j : string).

Import InMemoryAuthStore.

Lemma step_store_None key (o : op V) self :
  ¬ writes key o → store self !! key = None →
  store (step o self) !! key = None.
Proof.
  destruct o as [key' value ttl now1 now2|key' now1 now2|key'|now];
    cbn [step writes]; intros Hw Hnone.
  - unfold set. destruct (result_bind _ _) as [exp|e]; cbn [snd].
    + apply cleanup_store_None. cbn [store]. by rewrite lookup_insert_ne.
    + cbn [store]. by rewrite lookup_insert_ne.
  - rewrite get_state. by apply cleanup_store_None.
  - cbn [delete store]. by apply lookup_delete_None; right.
  - by apply cleanup_store_None.
Qed.

Lemma run_store_None key (ops : list (op V)) self :
  Forall (λ o, ¬ writes key o) ops → store self !! key = None →
  store (run ops self) !! key = None.
Proof.
  unfold run. intros Hops. revert self.
  induction Hops as [|o ops Ho _ IH]; intros self Hnone; cbn [foldl].
  - done.
  - apply IH. by apply step_store_None.
Qed.
End never_written.

(** ** The status handler, case by case *)

Section handler_facts.
Context {lib : PyLib}.
Implicit Types (r : redis.db) (env : status_env) (session_id : string).

Lemma status_unfold env session_id r :
  get_extension_auth_status env session_id r
  = match get_fault env with
    | Some msg => (Return (status_error_body (RedisError msg)), r)
    | None =>
        let cached := redis.lookup_live (get_now env) (cache_key_of session_id) r in
        if falsy cached then (Return pending_body, r)
        else match json_loads (default "" cached) with
             | Raise e => (Return (status_error_body e), r)
             | Return auth_data =>
                 match delete_fault env with
                 | Some msg => (Return (status_error_body (RedisError msg)), r)
                 | None =>
                     let r' := base.delete (cache_key_of session_id) r in
                     match subscript auth_data "clerk_token" with
                     | Raise e => (Return (status_error_body e), r')
                     | Return token =>
                         match subscript auth_data "user_data" with
                         | Raise e => (Return (status_error_body e), r')
                         | Return data => (Return (completed_body token data), r')
                         end
                     end
                 end
             end
    end.
Proof.
  unfold get_extension_auth_status, redis.try_except, redis.bind, redis.get,
    redis.delete, redis.lift, redis.ret, redis.raise.
  destruct (get_fault env); [done|]. cbn zeta.
  destruct (falsy _); [done|].
  destruct (json_loads _); [|done].
  destruct (delete_fault env); [done|].
  destruct (subscript _ "clerk_token"); [|done].
  by destruct (subscript _ "user_data").
Qed.

Lemma lookup_live_None now key r :
  r !! key = None → redis.lookup_live now key r = None.
Proof. unfold redis.lookup_live. by intros ->. Qed.

(** With no entry under the key, and the [GET] answered, the handler
    reports [pending] and leaves the keyspace alone. *)
Lemma status_absent now session_id r :
  r !! cache_key_of session_id = None →
  get_extension_auth_status (env_ok now) session_id r = (Return pending_body, r).
Proof.
  intros Hnone. rewrite status_unfold. cbn [env_ok get_fault get_now].
  cbn zeta. by rewrite lookup_live_None.
Qed.

Lemma complete_unfold (cenv : complete_env) (request : ExtAuthComplete) r :
  complete_extension_auth cenv request r
  = match json_dumps (cache_data_of cenv request) with
    | Raise e =>
        (Raise {| status_code := 500;
                  detail := "Failed to store auth data: " ++ str_exn e |}, r)
    | Return text =>
        match setex_fault cenv with
        | Some msg =>
            (Raise {| status_code := 500;
                      detail := "Failed to store auth data: " ++ msg |}, r)
        | None =>
            (Return (stored_body request),
             <[cache_key_of (session_id request)
               := (text, setex_now cenv + 5 * 60 * 1000)]> r)
        end
    end.
Proof.
  unfold complete_extension_auth, redis.bind, redis.lift, redis.setex,
    redis.raise, redis.ret.
  destruct (json_dumps _); [|done].
  by destruct (setex_fault cenv).
Qed.
End handler_facts.

(** ** The handlers *)

Section handler_claims.
Context {lib : PyLib}.
Implicit Types (r : redis.db) (session_id : string).


(** C3, as amended: the status handler never raises; when its [GET]
    raises, or its [DEL] raises after a non-empty entry was read and
    decoded, it returns [{success: False, result: None, message,
    status_code: 500}], a body that does not report [pending] and whose
    message ends with the text of the exception.  The completion handler
    never returns such a body: what it returns is the [stored] body, and
    when its [SETEX] raises it raises [HTTPException] with [status_code]
    500 and the exception's text in [detail], as it does when
    [json.dumps] raises before the command is sent. *)
Theorem backend_failure :
  (∀ env session_id r, ∃ body r',
     get_extension_auth_status env session_id r = (Return body, r'))
  ∧ (∀ env session_id r msg,
       get_fault env = Some msg →
       get_extension_auth_status env session_id r
       = (Return (status_error_body (RedisError msg)), r))
  ∧ (∀ env session_id r cached auth_data msg,
       get_fault env = None →
       redis.lookup_live (get_now env) (cache_key_of session_id) r = Some cached →
       cached ≠ "" →
       json_loads cached = Return auth_data →
       delete_fault env = Some msg →
       get_extension_auth_status env session_id r
       = (Return (status_error_body (RedisError msg)), r))
  ∧ (∀ e, is_failure_body (status_error_body e)
          ∧ status_of (status_error_body e) ≠ Some "pending"
          ∧ field "success" (status_error_body e) = Some (JBool false)
          ∧ field "result" (status_error_body e) = Some JNone
          ∧ field "message" (status_error_body e)
            = Some (JStr ("Error checking auth status: " ++ str_exn e))
          ∧ field "status_code" (status_error_body e) = Some (JInt 500))
  ∧ (∀ env request r text msg,
       json_dumps (cache_data_of env request) = Return text →
       setex_fault env = Some msg →
       complete_extension_auth env request r
       = (Raise {| status_code := 500;
                   detail := "Failed to store auth data: " ++ msg |}, r))
  ∧ (∀ env request r e,
       json_dumps (cache_data_of env request) = Raise e →
       complete_extension_auth env request r
       = (Raise {| status_code := 500;
                   detail := "Failed to store auth data: " ++ str_exn e |}, r))
  ∧ (∀ env request r body,
       (complete_extension_auth env request r).1 = Return body →
       body = stored_body request
       ∧ ¬ is_failure_body body
       ∧ setex_fault env = None).
Proof.
  repeat apply conj.
  - intros env session_id r. rewrite status_unfold. cbn zeta.
    repeat match goal with
           | |- context [match ?x with _ => _ end] => destruct x
           end; eauto.
  - intros env session_id r msg Hget. rewrite status_unfold. by rewrite Hget.
  - intros env session_id r cached auth_data msg Hget Hlive Hne Hloads Hdel.
    rewrite status_unfold, Hget. cbn zeta. rewrite Hlive. cbn [falsy].
    rewrite bool_decide_eq_false_2 by done.
    change (default "" (Some cached)) with cached.
    by rewrite Hloads, Hdel.
  - intros e. split; [cbn; eauto|].
    split; [discriminate|]. by repeat apply conj.
  - intros env request r text msg Hdumps Hsetex.
    by rewrite complete_unfold, Hdumps, Hsetex.
  - intros env request r e Hdumps.
    by rewrite complete_unfold, Hdumps.
  - intros env request r body. rewrite complete_unfold.
    destruct (json_dumps _); [|discriminate].
    destruct (setex_fault env); [discriminate|].
    cbn [fst]. intros [= <-]. repeat apply conj; [done| |done].
    cbn. intros [[=] _].
Qed.

(** C5: when the key of the polled session holds a live entry whose text
    is not empty and decodes to a dictionary with the keys [clerk_token]
    and [user_data], and the handler's commands are answered, the
    response is [{success: True, result: {status: completed, clerk_token,
    user_data}, message}] with these two values (the credential token is
    under the key [clerk_token]), and the entry is deleted.  Such is the
    entry that the completion handler stores, when [json.dumps] returns
    and [json.loads] gives back what [json.dumps] was given: polled
    before its five minutes are over, it yields the request's
    [clerk_token] and [user_data]. *)
Theorem completed_response :
  (∀ now session_id r cached items token data,
     redis.lookup_live now (cache_key_of session_id) r = Some cached →
     cached ≠ "" →
     json_loads cached = Return (JDict items) →
     dict_lookup "clerk_token" items = Some token →
     dict_lookup "user_data" items = Some data →
     get_extension_auth_status (env_ok now) session_id r
     = (Return
          (JDict [("success", JBool true);
                  ("result", JDict [("status", JStr "completed");
                                    ("clerk_token", token);
                                    ("user_data", data)]);
                  ("message", JStr "Authentication completed successfully")]),
        base.delete (cache_key_of session_id) r))
  ∧ (∀ cenv request r now text,
       setex_fault cenv = None →
       json_dumps (cache_data_of cenv request) = Return text →
       text ≠ "" →
       json_loads text = Return (cache_data_of cenv request) →
       now ≤ setex_now cenv + 300000 →
       (complete_extension_auth cenv request r).1 = Return (stored_body request)
       ∧ get_extension_auth_status (env_ok now) (session_id request)
           (complete_extension_auth cenv request r).2
         = (Return
              (JDict [("success", JBool true);
                      ("result", JDict [("status", JStr "completed");
                                        ("clerk_token", JStr (clerk_token request));
                                        ("user_data", user_data request)]);
                      ("message", JStr "Authentication completed successfully")]),
            base.delete (cache_key_of (session_id request))
              (complete_extension_auth cenv request r).2)).
Proof.
  assert (∀ now session_id r cached items token data,
     redis.lookup_live now (cache_key_of session_id) r = Some cached →
     cached ≠ "" →
     json_loads cached = Return (JDict items) →
     dict_lookup "clerk_token" items = Some token →
     dict_lookup "user_data" items = Some data →
     get_extension_auth_status (env_ok now) session_id r
     = (Return
          (JDict [("success", JBool true);
                  ("result", JDict [("status", JStr "completed");
                                    ("clerk_token", token);
                                    ("user_data", data)]);
                  ("message", JStr "Authentication completed successfully")]),
        base.delete (cache_key_of session_id) r)) as Hgeneral.
  { intros now session_id r cached items token data Hlive Hne Hloads Htok Hdata.
    rewrite status_unfold. cbn [env_ok get_fault get_now delete_fault]. cbn zeta.
    rewrite Hlive. cbn [falsy].
    rewrite bool_decide_eq_false_2 by done.
    change (default "" (Some cached)) with cached.
    rewrite Hloads. cbn [subscript]. by rewrite Htok, Hdata. }
  split; [exact Hgeneral|].
  intros cenv request r now text Hsetex Hdumps Hne Hloads Hnow.
  rewrite complete_unfold, Hdumps, Hsetex. cbn [fst snd]. split; [done|].
  eapply Hgeneral; [|exact Hne|exact Hloads|done..].
  unfold redis.lookup_live. rewrite lookup_insert_eq.
  rewrite bool_decide_eq_true_2; [done | lia].
Qed.
End handler_claims.

(** C7: a key that no [set] of the store's history has written has no
    payload, so that [get] returns [None] for it; and the status handler,
    polled for a session whose key is not in the keyspace, returns the
    [pending] body, whose [success] is [True] and whose [result] is
    [{status: pending}], when its [GET] is answered. *)
Theorem never_written {V : Type} {lib : PyLib} :
  (∀ (ops : list (op V)) key now1 now2,
     Forall (λ o, ¬ writes key o) ops →
     (InMemoryAuthStore.get key now1 now2
        (run ops InMemoryAuthStore.__init__)).1 = None)
  ∧ (∀ now session_id (r : redis.db),
       r !! cache_key_of session_id = None →
       get_extension_auth_status (env_ok now) session_id r
       = (Return pending_body, r)
       ∧ field "success" pending_body = Some (JBool true)
       ∧ field "result" pending_body = Some (JDict [("status", JStr "pending")])).
Proof.
  split.
  - intros ops key now1 now2 Hops.
    rewrite get_result, (run_store_None key ops); done.
  - intros now session_id r Hnone. by rewrite status_absent.
Qed.

(** * The properties on concrete runs *)

Section runs.
Import InMemoryAuthStore.

Lemma set_then_get_witness :
  (set "sess-1" sample_cache_data 300 t2026 (t2026 + 1) fresh).1 = Return ()
  ∧ (get "sess-1" (t2026 + 2) (t2026 + 3)
       (set "sess-1" sample_cache_data 300 t2026 (t2026 + 1) fresh).2).1
    = Some sample_cache_data.
Proof.
  apply (set_then_get fresh "sess-1" sample_cache_data 300
           t2026 (t2026 + 1) (t2026 + 2) (t2026 + 3));
    unfold datetime.valid, datetime.max, datetime.MAXORDINAL, t2026; lia.
Defined.

(** C2 fails as stated: a time to live of [10^12] seconds is positive,
    but the expiry instant is past [datetime.max]; [set] has written the
    payload, raises [OverflowError] and records no expiry instant, and
    the [get] that follows returns [None]. *)
Lemma overflowing_ttl_reads_nothing :
  0 < 10 ^ 12
  ∧ datetime.valid t2026
  ∧ t2026 < t2026 + 10 ^ 12 * 1000000
  ∧ (set "sess-1" sample_cache_data (10 ^ 12) t2026 t2026 fresh).1
    = Raise OverflowError
  ∧ (get "sess-1" t2026 t2026
       (set "sess-1" sample_cache_data (10 ^ 12) t2026 t2026 fresh).2).1
    = None
  ∧ (get "sess-1" t2026 t2026
       (set "sess-1" sample_cache_data (10 ^ 12) t2026 t2026 fresh).2).1
    ≠ Some sample_cache_data.
Proof.
  repeat apply conj; vm_compute; done.
Qed.

Lemma get_after_expiry_witness :
  (get "sess-1" (five_minutes_later + 1) (five_minutes_later + 1)
     (set "sess-1" sample_cache_data 300 t2026 t2026 fresh).2).1 = None.
Proof.
  refine (proj2 (get_after_expiry fresh "sess-1" _ _)
            sample_cache_data 300 t2026 t2026 _ _ _ _).
  - vm_compute. reflexivity.
  - unfold five_minutes_later. lia.
  - unfold five_minutes_later. lia.
Defined.

Lemma get_at_expiry_witness :
  let self := (set "sess-1" sample_cache_data 300 t2026 t2026 fresh).2 in
  expiry self !! "sess-1" = Some five_minutes_later
  ∧ (get "sess-1" five_minutes_later five_minutes_later self).1 = None
  ∧ expiry (get "sess-1" five_minutes_later five_minutes_later self).2 !! "sess-1"
    = Some five_minutes_later
  ∧ (get "sess-1" (five_minutes_later - 1) (five_minutes_later - 1) self).1
    = Some sample_cache_data.
Proof.
  intros self.
  assert (expiry self !! "sess-1" = Some five_minutes_later) as Hexp
    by (vm_compute; reflexivity).
  destruct (get_at_expiry self "sess-1" five_minutes_later Hexp)
    as (Hnone & _ & _ & Hkept & Hbefore).
  repeat apply conj; [exact Hexp | exact Hnone | exact Hkept |].
  apply Hbefore. vm_compute. reflexivity.
Defined.

Lemma other_key_untouched_witness :
  let self := (set "sess-2" (JStr "other") 300 t2026 t2026 fresh).2 in
  "sess-1" ≠ "sess-2"
  ∧ store (set "sess-1" sample_cache_data 300 (t2026 + 1) (t2026 + 2) self).2 !! "sess-2"
    = store self !! "sess-2"
  ∧ expiry (delete "sess-1" self) !! "sess-2" = Some five_minutes_later.
Proof.
  intros self.
  assert ("sess-1" ≠ "sess-2") as Hne by discriminate.
  assert (expiry self !! "sess-2" = Some five_minutes_later) as Hexp
    by (vm_compute; reflexivity).
  assert (t2026 + 1 ≤ five_minutes_later) as H1
    by (unfold five_minutes_later; lia).
  assert (t2026 + 2 ≤ five_minutes_later) as H2
    by (unfold five_minutes_later; lia).
  destruct (other_key_untouched self "sess-1" "sess-2" sample_cache_data 300
              (t2026 + 1) (t2026 + 2) five_minutes_later Hne Hexp H1 H2)
    as ((Hset & _) & _ & (_ & Hdel)).
  repeat apply conj; [exact Hne | exact Hset | exact Hdel].
Defined.

Lemma set_twice_witness :
  let second := set "sess-1" (JStr "new") 300 (t2026 + 1) (t2026 + 1)
                  (set "sess-1" (JStr "old") 300 t2026 t2026 fresh).2 in
  second.1 = Return ()
  ∧ map_to_list (store second.2) = [("sess-1", JStr "new")]
  ∧ store second.2 !! "sess-1" = Some (JStr "new")
  ∧ expiry second.2 !! "sess-1" = Some (t2026 + 1 + 300 * 1000000).
Proof.
  intros second.
  assert (second.1 = Return ()) as Hret by (vm_compute; reflexivity).
  destruct (set_twice fresh "sess-1" (JStr "old") (JStr "new") 300
              t2026 t2026 (t2026 + 1) (t2026 + 1) (t2026 + 2) (t2026 + 2))
    as (_ & _ & Hone).
  destruct (Hone Hret ltac:(lia)) as [Hs He].
  repeat apply conj; [exact Hret | vm_compute; reflexivity | exact Hs | exact He].
Defined.

Lemma key_sets_kept_witness :
  keys_agree fresh
  ∧ keys_agree (set "sess-1" sample_cache_data 300 t2026 t2026 fresh).2.
Proof.
  destruct (key_sets_kept (V:=json)) as [Hinit Hstep].
  split; [exact Hinit|].
  apply (Hstep fresh (Set_ "sess-1" sample_cache_data 300 t2026 t2026));
    [exact Hinit | vm_compute; reflexivity].
Defined.

(** C9 fails as stated: a [set] whose expiry instant overflows has
    written the payload mapping and not the expiry mapping. *)
Lemma key_sets_differ_after_overflow :
  keys_agree fresh
  ∧ store (set "sess-1" sample_cache_data (10 ^ 12) t2026 t2026 fresh).2 !! "sess-1"
    = Some sample_cache_data
  ∧ expiry (set "sess-1" sample_cache_data (10 ^ 12) t2026 t2026 fresh).2 !! "sess-1"
    = None
  ∧ ¬ keys_agree (set "sess-1" sample_cache_data (10 ^ 12) t2026 t2026 fresh).2.
Proof.
  assert (store (set "sess-1" sample_cache_data (10 ^ 12) t2026 t2026 fresh).2
            !! "sess-1" = Some sample_cache_data) as Hs by (vm_compute; reflexivity).
  assert (expiry (set "sess-1" sample_cache_data (10 ^ 12) t2026 t2026 fresh).2
            !! "sess-1" = None) as He by (vm_compute; reflexivity).
  repeat apply conj; [done..|].
  rewrite keys_agree_lookup. intros Hagree.
  specialize (Hagree "sess-1"). rewrite Hs, He in Hagree.
  destruct Hagree as [Hagree _]. by destruct Hagree as [? [=]].
Qed.
End runs.

Section handler_runs.


Lemma backend_failure_witness :
  status {| get_now := ms2026; get_fault := Some "Connection refused";
            delete_fault := None |} "sess-1" sample_db
  = (Return (status_error_body (RedisError "Connection refused")), sample_db)
  ∧ complete (sample_complete_env (Some "Connection refused")) sample_request ∅
    = (Raise {| status_code := 500;
                detail := "Failed to store auth data: " ++ "Connection refused" |},
       ∅)
  ∧ complete_extension_auth (lib := rejecting_lib) (sample_complete_env None)
      sample_request ∅
    = (Raise {| status_code := 500;
                detail := "Failed to store auth data: "
                          ++ str_exn (ValueError "Exceeds the limit (4300 digits) for integer string conversion") |},
       ∅).
Proof.
  destruct (backend_failure (lib := sample_lib))
    as (_ & Hget & _ & _ & Hsetex & _ & _).
  destruct (backend_failure (lib := rejecting_lib))
    as (_ & _ & _ & _ & _ & Hdumps & _).
  repeat apply conj.
  - apply Hget. reflexivity.
  - apply (Hsetex _ _ _ sample_text); reflexivity.
  - apply Hdumps. reflexivity.
Defined.

(** C3 fails as stated for the completion handler: when [SETEX] raises,
    it returns no body at all, it raises [HTTPException]. *)
Lemma completion_failure_has_no_body :
  (complete (sample_complete_env (Some "Connection refused")) sample_request ∅).1
  = Raise {| status_code := 500;
             detail := "Failed to store auth data: Connection refused" |}
  ∧ ¬ ∃ body,
        (complete (sample_complete_env (Some "Connection refused"))
           sample_request ∅).1 = Return body
        ∧ is_failure_body body.
Proof.
  split; [vm_compute; reflexivity|].
  intros (body & Hbody & _). vm_compute in Hbody. discriminate Hbody.
Qed.

Lemma completed_response_witness :
  (complete (sample_complete_env None) sample_request ∅).1
  = Return (stored_body sample_request)
  ∧ status (env_ok (ms2026 + 1000)) (session_id sample_request)
      (complete (sample_complete_env None) sample_request ∅).2
    = (Return
         (JDict [("success", JBool true);
                 ("result", JDict [("status", JStr "completed");
                                   ("clerk_token", JStr (clerk_token sample_request));
                                   ("user_data", user_data sample_request)]);
                 ("message", JStr "Authentication completed successfully")]),
       base.delete (cache_key_of (session_id sample_request))
         (complete (sample_complete_env None) sample_request ∅).2).
Proof.
  destruct (completed_response (lib := sample_lib)) as [_ Hstored].
  apply (Hstored (sample_complete_env None) sample_request ∅ (ms2026 + 1000)
           sample_text).
  - reflexivity.
  - reflexivity.
  - vm_compute. discriminate.
  - vm_compute. reflexivity.
  - vm_compute. discriminate.
Defined.

Lemma never_written_witness :
  (InMemoryAuthStore.get "sess-404" (t2026 + 2) (t2026 + 2)
     (run [Set_ "sess-1" sample_cache_data 300 t2026 t2026;
           Get "sess-1" (t2026 + 1) (t2026 + 1);
           Delete "sess-404"] fresh)).1 = None
  ∧ status (env_ok ms2026) "sess-404" sample_db = (Return pending_body, sample_db).
Proof.
  destruct (never_written (V := json) (lib := sample_lib)) as [Hstore Hstatus].
  split.
  - apply Hstore. repeat constructor; cbn [writes]; [discriminate | tauto..].
  - apply Hstatus. vm_compute. reflexivity.
Defined.
End handler_runs.

(** * Further properties of the store *)

Section store_more.
Context {V : Type}.
Implicit Types (self : InMemoryAuthStore.t V) (key k j : string) (value p : V).

Import InMemoryAuthStore.

Lemma store_ext self self' :
  store self = store self' → expiry self = expiry self' → self = self'.
Proof. destruct self, self'. cbn. by intros -> ->. Qed.

(** X1: after [delete(key)] the key is in neither mapping and [get(key)]
    returns [None] at any clock; deleting a key that is in neither
    mapping changes nothing, so a second [delete] is harmless. *)
Theorem delete_then_get self key now1 now2 :
  store (delete key self) !! key = None
  ∧ expiry (delete key self) !! key = None
  ∧ (get key now1 now2 (delete key self)).1 = None
  ∧ delete key (delete key self) = delete key self
  ∧ (store self !! key = None → expiry self !! key = None →
     delete key self = self).
Proof.
  assert (store (delete key self) !! key = None) as Hs
    by apply lookup_delete_eq.
  assert (expiry (delete key self) !! key = None) as He
    by apply lookup_delete_eq.
  repeat apply conj; [done | done | | |].
  - by rewrite get_result, Hs.
  - apply store_ext; cbn [delete store expiry]; apply delete_delete_eq.
  - intros Hns Hne. apply store_ext; cbn [delete store expiry];
      by apply delete_id.
Qed.

(** X2: [get(key)] returns the payload [p] exactly when [key] has the
    payload [p] and an expiry instant that is not before the clock read
    of the sweep and is after the clock read of the comparison. *)
Theorem get_Some_iff self key p now1 now2 :
  (get key now1 now2 self).1 = Some p
  ↔ store self !! key = Some p
    ∧ ∃ exp, expiry self !! key = Some exp ∧ now1 ≤ exp ∧ now2 < exp.
Proof.
  rewrite get_result. split.
  - destruct (store self !! key) as [value|]; [|done].
    destruct (expiry self !! key) as [exp|]; [|done].
    case_bool_decide as Hin; [|done].
    intros [= ->]. split; [done|]. exists exp. by destruct Hin.
  - intros [-> (exp & -> & H1 & H2)].
    by rewrite bool_decide_eq_true_2.
Qed.

(** X3: [get] does not consume.  When [get(key)] returns [p], the entry
    is still in both mappings after the call, and every later [get(key)]
    whose clock reads are before the expiry instant returns [p] again. *)
Theorem get_keeps_entry self key p now1 now2 :
  (get key now1 now2 self).1 = Some p →
  ∃ exp,
    now2 < exp
    ∧ store (get key now1 now2 self).2 !! key = Some p
    ∧ expiry (get key now1 now2 self).2 !! key = Some exp
    ∧ ∀ now3 now4, now3 ≤ exp → now4 < exp →
        (get key now3 now4 (get key now1 now2 self).2).1 = Some p.
Proof.
  rewrite get_result, get_state.
  destruct (store self !! key) as [value|] eqn:Hs; [|done].
  destruct (expiry self !! key) as [exp|] eqn:He; [|done].
  case_bool_decide as Hin; [|done].
  intros [= ->]. destruct Hin as [H1 H2].
  destruct (cleanup_keeps now1 self key exp He H1) as [Hs' He'].
  exists exp. repeat apply conj; [done | congruence | done |].
  intros now3 now4 H3 H4.
  rewrite get_result, Hs', Hs, He'.
  by rewrite bool_decide_eq_true_2.
Qed.

(** X4: the sweep removes exactly the keys whose expiry instant is before
    [now], from both mappings: an expiry instant survives when it is not
    before [now], and a payload survives when its key has no expiry
    instant before [now]. *)
Theorem cleanup_exact self now j :
  (∀ exp, expiry (_cleanup_expired now self) !! j = Some exp
          ↔ expiry self !! j = Some exp ∧ now ≤ exp)
  ∧ (∀ p, store (_cleanup_expired now self) !! j = Some p
          ↔ store self !! j = Some p
            ∧ ∀ exp, expiry self !! j = Some exp → now ≤ exp).
Proof.
  rewrite cleanup_store, cleanup_expiry. split.
  - intros exp. destruct (expiry self !! j) as [exp'|].
    + case_bool_decide; split.
      * done.
      * intros [[= ->] ?]. lia.
      * intros [= ->]. split; [done | lia].
      * by intros [? _].
    + split; [done | by intros [? _]].
  - intros p. destruct (expiry self !! j) as [exp'|].
    + case_bool_decide as Hlt; split.
      * done.
      * intros [_ Hall]. specialize (Hall exp' eq_refl). lia.
      * intros Hp. split; [done|]. intros exp [= <-]. lia.
      * by intros [? _].
    + split; [|by intros [? _]].
      intros Hp. split; [done|]. by intros exp [=].
Qed.

Lemma cleanup_compose_lookup self a b :
  (∀ j, store (_cleanup_expired a (_cleanup_expired b self)) !! j
        = store (_cleanup_expired (a `max` b) self) !! j)
  ∧ (∀ j, expiry (_cleanup_expired a (_cleanup_expired b self)) !! j
          = expiry (_cleanup_expired (a `max` b) self) !! j).
Proof.
  split; intros j.
  - rewrite !cleanup_store, !cleanup_expiry.
    destruct (expiry self !! j) as [exp|]; [|done].
    repeat case_bool_decide; try done; lia.
  - rewrite !cleanup_expiry.
    destruct (expiry self !! j) as [exp|]; [|done].
    repeat case_bool_decide; try done; lia.
Qed.

(** X5: two sweeps in a row are one sweep at the later of the two
    instants; in particular a sweep repeated at the same or an earlier
    instant changes nothing. *)
Theorem cleanup_compose self a b :
  _cleanup_expired a (_cleanup_expired b self)
  = _cleanup_expired (a `max` b) self
  ∧ (a ≤ b →
     _cleanup_expired a (_cleanup_expired b self) = _cleanup_expired b self).
Proof.
  destruct (cleanup_compose_lookup self a b) as [Hs He].
  assert (_cleanup_expired a (_cleanup_expired b self)
          = _cleanup_expired (a `max` b) self) as Heq
    by (apply store_ext; by apply map_eq).
  split; [done|].
  intros Hab. rewrite Heq. by rewrite Z.max_r.
Qed.
End store_more.

Section set_more.
Context {V : Type}.
Implicit Types (self : InMemoryAuthStore.t V) (key k j : string) (value p : V).

Import InMemoryAuthStore.

Lemma ttl_days_bound ttl now :
  0 ≤ now ≤ 315537897599999999 →
  0 ≤ now + ttl * 1000000 ≤ 315537897599999999 →
  Z.abs (ttl `div` 86400) ≤ 999999999.
Proof.
  intros Hnow Hexp.
  assert (-315537897600 ≤ ttl ≤ 315537897600) as Hb by lia.
  assert (-3652060 ≤ ttl `div` 86400 ≤ 3652060).
  { split.
    - apply Z.div_le_lower_bound; lia.
    - apply Z.div_le_upper_bound; lia. }
  lia.
Qed.

Lemma expiry_instant_iff ttl now :
  datetime.valid now →
  result_bind (timedelta.of_seconds ttl) (datetime.add now)
  = Return (now + ttl * 1000000)
  ↔ 0 ≤ now + ttl * 1000000 ≤ datetime.max.
Proof.
  intros Hnow. split.
  - intros [_ Hv]%expiry_instant_inv. exact Hv.
  - intros Hexp.
    unfold timedelta.of_seconds, timedelta.MAX_DELTA_DAYS.
    rewrite bool_decide_eq_true_2.
    + cbn [result_bind]. unfold datetime.add.
      by rewrite bool_decide_eq_true_2.
    + by apply (ttl_days_bound ttl now).
Qed.

(** X6: for a clock read that is a [datetime], [set] returns exactly
    when the expiry instant [utcnow() + ttl_seconds] lies between
    [datetime.min] and [datetime.max]; otherwise it raises
    [OverflowError]. *)
Theorem set_returns_iff self key p ttl now1 now2 :
  datetime.valid now1 →
  ((set key p ttl now1 now2 self).1 = Return ()
   ↔ 0 ≤ now1 + ttl * 1000000 ≤ datetime.max)
  ∧ ((set key p ttl now1 now2 self).1 = Raise OverflowError
     ↔ ¬ (0 ≤ now1 + ttl * 1000000 ≤ datetime.max)).
Proof.
  intros Hnow. pose proof (expiry_instant_iff ttl now1 Hnow) as Hiff.
  unfold set.
  destruct (result_bind _ _) as [exp|[]] eqn:Hexp; cbn [fst].
  - apply expiry_instant_inv in Hexp as Hinv. destruct Hinv as [-> _].
    split; [tauto|]. split; [done|]. intros Hout. tauto.
  - assert (¬ (0 ≤ now1 + ttl * 1000000 ≤ datetime.max)) as Hout.
    { intros Hin. apply Hiff in Hin. discriminate Hin. }
    split; [|tauto]. split; [done | tauto].
Qed.

(** X7: a [set] that raises has replaced the payload of the key and
    done nothing else: the expiry mapping is the one before the call and
    no sweep has run.  A key that already had an expiry instant keeps
    it, so that a [get] before that old instant returns the new
    payload. *)
Theorem raising_set_keeps_old_expiry self key p ttl now1 now2 e :
  (set key p ttl now1 now2 self).1 = Raise e →
  store (set key p ttl now1 now2 self).2 = <[key := p]> (store self)
  ∧ expiry (set key p ttl now1 now2 self).2 = expiry self
  ∧ ∀ exp now3 now4,
      expiry self !! key = Some exp → now3 ≤ exp → now4 < exp →
      (get key now3 now4 (set key p ttl now1 now2 self).2).1 = Some p.
Proof.
  unfold set. destruct (result_bind _ _) as [exp'|e']; [discriminate|].
  intros _. cbn [snd store expiry]. repeat apply conj; [done..|].
  intros exp now3 now4 Hexp H3 H4.
  rewrite get_result. cbn [store expiry].
  rewrite lookup_insert_eq, Hexp. by rewrite bool_decide_eq_true_2.
Qed.

(** X8: a time to live that is zero or negative stores nothing that can
    be read: when [set] returns and the clock of a later [get] has not
    gone back behind that of the [set], [get] returns [None]. *)
Theorem nonpositive_ttl_unreadable self key p ttl now1 now2 now3 now4 :
  ttl ≤ 0 →
  (set key p ttl now1 now2 self).1 = Return () →
  now1 ≤ now4 →
  (get key now3 now4 (set key p ttl now1 now2 self).2).1 = None.
Proof.
  intros Httl Hret Hclock.
  destruct (set key p ttl now1 now2 self) as [res self'] eqn:Hset.
  cbn [fst snd] in *. subst res.
  apply set_returns_inv in Hset as [_ ->].
  rewrite get_result, cleanup_store, cleanup_expiry. cbn [store expiry].
  rewrite !lookup_insert_eq.
  case_bool_decide; [done|].
  rewrite bool_decide_eq_false_2; [done | lia].
Qed.

(** X9: the sweep is global.  A [get(k)], and a [set(k, ...)] that
    returns, remove from both mappings every other key whose expiry
    instant is before the clock read of their sweep. *)
Theorem access_sweeps_all self k j p ttl now1 now2 exp :
  k ≠ j →
  expiry self !! j = Some exp →
  (exp < now1 →
   store (get k now1 now2 self).2 !! j = None
   ∧ expiry (get k now1 now2 self).2 !! j = None)
  ∧ (exp < now2 → (set k p ttl now1 now2 self).1 = Return () →
     store (set k p ttl now1 now2 self).2 !! j = None
     ∧ expiry (set k p ttl now1 now2 self).2 !! j = None).
Proof.
  intros Hne Hexp. split.
  - intros Hlt. rewrite get_state. by apply (cleanup_drops now1 self j exp).
  - intros Hlt Hret.
    destruct (set k p ttl now1 now2 self) as [res self'] eqn:Hset.
    cbn [fst snd] in *. subst res.
    apply set_returns_inv in Hset as [_ ->].
    apply (cleanup_drops now2 _ j exp); [|done].
    cbn [expiry]. by rewrite lookup_insert_ne.
Qed.

Lemma step_expiry_within_store (o : op V) self :
  expiry_within_store self → expiry_within_store (step o self).
Proof.
  destruct o as [key value ttl now1 now2|key now1 now2|key|now]; cbn [step].
  - intros Hsub. unfold set.
    destruct (result_bind _ _) as [exp|e]; cbn [snd].
    + apply cleanup_expiry_within_store.
      unfold expiry_within_store in *. cbn [store expiry].
      rewrite !dom_insert_L. by apply union_mono_l.
    + unfold expiry_within_store in *. cbn [store expiry].
      rewrite dom_insert_L. by apply union_subseteq_r'.
  - rewrite get_state. apply cleanup_expiry_within_store.
  - apply delete_expiry_within_store.
  - apply cleanup_expiry_within_store.
Qed.

Lemma run_expiry_within_store (ops : list (op V)) self :
  expiry_within_store self → expiry_within_store (run ops self).
Proof.
  unfold run. revert self.
  induction ops as [|o ops IH]; intros self Hsub; cbn [foldl]; [done|].
  by apply IH, step_expiry_within_store.
Qed.

(** X10: after any history of calls on a new store, also with calls
    that raised, a key that has an expiry instant has a payload: a
    [get] whose clock reads are before that instant returns one. *)
Theorem reachable_unexpired_readable (ops : list (op V)) key exp now1 now2 :
  expiry (run ops __init__) !! key = Some exp →
  now1 ≤ exp → now2 < exp →
  ∃ p, store (run ops __init__) !! key = Some p
       ∧ (get key now1 now2 (run ops __init__)).1 = Some p.
Proof.
  intros Hexp H1 H2.
  assert (expiry_within_store (run ops (__init__ (V:=V)))) as Hsub.
  { apply run_expiry_within_store. unfold expiry_within_store.
    cbn [__init__ store expiry]. done. }
  rewrite expiry_within_store_lookup in Hsub.
  destruct (Hsub key) as [p Hp]; [by rewrite Hexp|].
  exists p. split; [done|].
  rewrite get_result, Hp, Hexp. by rewrite bool_decide_eq_true_2.
Qed.
End set_more.

(** * Further properties of the handlers *)

Section handlers_more.
Context {lib : PyLib}.
Implicit Types (r : redis.db) (sid : string).

Lemma cache_key_of_inj sid sid' :
  cache_key_of sid = cache_key_of sid' →
  sid = sid'.
Proof. unfold cache_key_of. cbn. by intros [=]. Qed.

(** The status handler leaves the keyspace as it was or deletes its own
    key. *)
Lemma status_state env sid r :
  (get_extension_auth_status env sid r).2 = r
  ∨ (get_extension_auth_status env sid r).2
    = base.delete (cache_key_of sid) r.
Proof.
  rewrite status_unfold. cbn zeta.
  repeat match goal with
         | |- context [match ?x with _ => _ end] => destruct x
         end; cbn [snd]; auto.
Qed.

(** X11: a handler touches the key of its own session only.  Whatever
    happens to its commands, a poll for one session and a completion for
    one session leave the entry of every other session as it was. *)
Theorem handlers_touch_own_key sid sid' r :
  sid ≠ sid' →
  (∀ env, (get_extension_auth_status env sid r).2
          !! cache_key_of sid' = r !! cache_key_of sid')
  ∧ (∀ cenv request, session_id request = sid →
       (complete_extension_auth cenv request r).2
       !! cache_key_of sid' = r !! cache_key_of sid').
Proof.
  intros Hne.
  assert (cache_key_of sid ≠ cache_key_of sid') as Hkey
    by (intros Heq; by apply Hne, cache_key_of_inj).
  split.
  - intros env. destruct (status_state env sid r) as [-> | ->];
      [done | by apply lookup_delete_ne].
  - intros cenv request <-. rewrite complete_unfold.
    destruct (json_dumps _); [|done].
    destruct (setex_fault cenv); cbn [snd]; [done|].
    by apply lookup_insert_ne.
Qed.

(** X12: an entry whose expiry instant is before the server's clock is
    reported as [pending] and no [DEL] is sent.  So it is with the entry
    that the completion handler stored, that is when [json.dumps]
    returned and the [SETEX] was answered, once more than 300 seconds of
    the server's clock have passed. *)
Theorem expired_entry_pending sid r now :
  (∀ text expire_at,
     r !! cache_key_of sid = Some (text, expire_at) →
     expire_at < now →
     get_extension_auth_status (env_ok now) sid r
     = (Return pending_body, r))
  ∧ (∀ cenv request text,
       session_id request = sid →
       json_dumps (cache_data_of cenv request) = Return text →
       setex_fault cenv = None →
       setex_now cenv + 300000 < now →
       (complete_extension_auth cenv request r).1 = Return (stored_body request)
       ∧ get_extension_auth_status (env_ok now) sid
           (complete_extension_auth cenv request r).2
         = (Return pending_body, (complete_extension_auth cenv request r).2)).
Proof.
  assert (∀ r' text expire_at,
     r' !! cache_key_of sid = Some (text, expire_at) →
     expire_at < now →
     get_extension_auth_status (env_ok now) sid r'
     = (Return pending_body, r')) as Hgeneral.
  { intros r' text expire_at Hentry Hlt. rewrite status_unfold.
    cbn [env_ok get_fault get_now]. cbn zeta.
    unfold redis.lookup_live. rewrite Hentry.
    rewrite bool_decide_eq_false_2; [done | lia]. }
  split; [apply Hgeneral|].
  intros cenv request text <- Hdumps Hsetex Hlate.
  rewrite complete_unfold, Hdumps, Hsetex. cbn [fst snd]. split; [done|].
  eapply Hgeneral; [apply lookup_insert_eq | lia].
Qed.

(** X13: an entry whose text [json.loads] rejects is never consumed.
    When the [GET] is answered, the poll returns the failure body with
    the decoder's message and sends no [DEL], so the entry is still
    there for the next poll, which fails the same way. *)
Theorem undecodable_entry_stays env sid r cached e :
  get_fault env = None →
  redis.lookup_live (get_now env) (cache_key_of sid) r = Some cached →
  cached ≠ "" →
  json_loads cached = Raise e →
  get_extension_auth_status env sid r
  = (Return (status_error_body e), r).
Proof.
  intros Hget Hlive Hne Hloads.
  rewrite status_unfold, Hget. cbn zeta. rewrite Hlive. cbn [falsy].
  rewrite bool_decide_eq_false_2 by done.
  change (default "" (Some cached)) with cached.
  by rewrite Hloads.
Qed.

(** X14: the entry is deleted before its fields are read.  An entry that
    decodes to a dictionary without [clerk_token], or with it but without
    [user_data], is removed from the keyspace, and the poll answers the
    failure body for the [KeyError] of the missing key. *)
Theorem incomplete_entry_consumed now sid r cached items :
  redis.lookup_live now (cache_key_of sid) r = Some cached →
  cached ≠ "" →
  json_loads cached = Return (JDict items) →
  (dict_lookup "clerk_token" items = None →
   get_extension_auth_status (env_ok now) sid r
   = (Return (status_error_body (KeyError "clerk_token")),
      base.delete (cache_key_of sid) r))
  ∧ (is_Some (dict_lookup "clerk_token" items) →
     dict_lookup "user_data" items = None →
     get_extension_auth_status (env_ok now) sid r
     = (Return (status_error_body (KeyError "user_data")),
        base.delete (cache_key_of sid) r)).
Proof.
  intros Hlive Hne Hloads.
  assert (get_extension_auth_status (env_ok now) sid r
          = let r' := base.delete (cache_key_of sid) r in
            match subscript (JDict items) "clerk_token" with
            | Raise e => (Return (status_error_body e), r')
            | Return token =>
                match subscript (JDict items) "user_data" with
                | Raise e => (Return (status_error_body e), r')
                | Return data => (Return (completed_body token data), r')
                end
            end) as ->.
  { rewrite status_unfold. cbn [env_ok get_fault get_now delete_fault].
    cbn zeta. rewrite Hlive. cbn [falsy].
    rewrite bool_decide_eq_false_2 by done.
    change (default "" (Some cached)) with cached.
    by rewrite Hloads. }
  cbn zeta. cbn [subscript]. split.
  - by intros ->.
  - intros [token ->] ->. done.
Qed.

(** X15: an entry whose text is empty counts as no entry: when the [GET]
    is answered, the poll reports [pending] and leaves the entry in
    place, whether or not it has expired. *)
Theorem empty_text_pending env sid r expire_at :
  get_fault env = None →
  r !! cache_key_of sid = Some ("", expire_at) →
  get_extension_auth_status env sid r = (Return pending_body, r).
Proof.
  intros Hget Hentry. rewrite status_unfold, Hget. cbn zeta.
  unfold redis.lookup_live. rewrite Hentry.
  by case_bool_decide.
Qed.

(** X17: one hand-off, end to end.  When [json.dumps] returned a text
    that [json.loads] decodes to what was encoded, the completion
    handler has stored the request, and every command is answered, the
    first poll within 300 seconds returns a [success: True] body whose
    [result] is [{status: completed, clerk_token, user_data}] with the
    request's token and user data, the second poll returns [pending],
    and the keyspace is then the one before the completion without the
    session's key. *)
Theorem handoff_once cenv request r now1 now2 text :
  setex_fault cenv = None →
  json_dumps (cache_data_of cenv request) = Return text →
  text ≠ "" →
  json_loads text = Return (cache_data_of cenv request) →
  now1 ≤ setex_now cenv + 300000 →
  let stored := (complete_extension_auth cenv request r).2 in
  let first := get_extension_auth_status (env_ok now1) (session_id request) stored in
  let second := get_extension_auth_status (env_ok now2) (session_id request) first.2 in
  (∃ body,
     first.1 = Return body
     ∧ field "success" body = Some (JBool true)
     ∧ field "result" body
       = Some (JDict [("status", JStr "completed");
                      ("clerk_token", JStr (clerk_token request));
                      ("user_data", user_data request)]))
  ∧ second.1 = Return pending_body
  ∧ second.2 = base.delete (cache_key_of (session_id request)) r.
Proof.
  intros Hsetex Hdumps Hne Hloads Hnow stored first second.
  assert (stored = <[cache_key_of (session_id request)
                     := (text, setex_now cenv + 5 * 60 * 1000)]> r) as Hstored.
  { unfold stored. by rewrite complete_unfold, Hdumps, Hsetex. }
  assert (first
          = (Return (completed_body (JStr (clerk_token request)) (user_data request)),
             base.delete (cache_key_of (session_id request)) r)) as Hfirst.
  { unfold first. rewrite status_unfold.
    cbn [env_ok get_fault get_now delete_fault]. cbn zeta.
    unfold redis.lookup_live. rewrite Hstored, lookup_insert_eq.
    rewrite bool_decide_eq_true_2 by lia. cbn [falsy].
    rewrite bool_decide_eq_false_2 by done.
    change (default "" (Some ?x)) with x.
    rewrite Hloads. cbn. by rewrite delete_insert_eq. }
  assert (second
          = (Return pending_body,
             base.delete (cache_key_of (session_id request)) r)) as Hsecond.
  { unfold second. rewrite Hfirst. cbn [snd].
    apply status_absent, lookup_delete_eq. }
  rewrite Hfirst, Hsecond. cbn [fst snd]. split; [|done].
  eexists. split; [done|]. by split.
Qed.
End handlers_more.

(** * The further properties on concrete runs *)

Section more_runs.
Import InMemoryAuthStore.

Lemma delete_then_get_witness :
  store fresh !! "sess-1" = None
  ∧ expiry fresh !! "sess-1" = None
  ∧ delete "sess-1" fresh = fresh.
Proof.
  assert (store fresh !! "sess-1" = None) as Hs by reflexivity.
  assert (expiry fresh !! "sess-1" = None) as He by reflexivity.
  repeat apply conj; [exact Hs | exact He |].
  destruct (delete_then_get fresh "sess-1" t2026 t2026) as (_ & _ & _ & _ & Hid).
  exact (Hid Hs He).
Defined.

Lemma get_keeps_entry_witness :
  (get "sess-1" t2026 t2026 sample_store).1 = Some sample_cache_data
  ∧ ∃ exp,
      t2026 < exp
      ∧ store (get "sess-1" t2026 t2026 sample_store).2 !! "sess-1"
        = Some sample_cache_data
      ∧ expiry (get "sess-1" t2026 t2026 sample_store).2 !! "sess-1" = Some exp
      ∧ ∀ now3 now4, now3 ≤ exp → now4 < exp →
          (get "sess-1" now3 now4 (get "sess-1" t2026 t2026 sample_store).2).1
          = Some sample_cache_data.
Proof.
  assert ((get "sess-1" t2026 t2026 sample_store).1 = Some sample_cache_data)
    as Hget by (vm_compute; reflexivity).
  split; [exact Hget|].
  exact (get_keeps_entry sample_store "sess-1" sample_cache_data t2026 t2026 Hget).
Defined.

Lemma cleanup_compose_witness :
  t2026 ≤ five_minutes_later + 1
  ∧ _cleanup_expired t2026 (_cleanup_expired (five_minutes_later + 1) sample_store)
    = _cleanup_expired (five_minutes_later + 1) sample_store.
Proof.
  assert (t2026 ≤ five_minutes_later + 1) as Hle
    by (unfold five_minutes_later; lia).
  split; [exact Hle|].
  exact (proj2 (cleanup_compose sample_store t2026 (five_minutes_later + 1)) Hle).
Defined.

Lemma set_returns_iff_witness :
  datetime.valid t2026
  ∧ ((set "sess-1" sample_cache_data 300 t2026 t2026 fresh).1 = Return ()
     ↔ 0 ≤ t2026 + 300 * 1000000 ≤ datetime.max).
Proof.
  assert (datetime.valid t2026) as Hnow by (vm_compute; split; discriminate).
  split; [exact Hnow|].
  exact (proj1 (set_returns_iff fresh "sess-1" sample_cache_data 300
                  t2026 t2026 Hnow)).
Defined.

Lemma raising_set_keeps_old_expiry_witness :
  (set "sess-1" (JStr "new") (10 ^ 12) (t2026 + 1) (t2026 + 1) sample_store).1
  = Raise OverflowError
  ∧ expiry sample_store !! "sess-1" = Some five_minutes_later
  ∧ (get "sess-1" (t2026 + 2) (t2026 + 2)
       (set "sess-1" (JStr "new") (10 ^ 12) (t2026 + 1) (t2026 + 1)
          sample_store).2).1 = Some (JStr "new").
Proof.
  assert ((set "sess-1" (JStr "new") (10 ^ 12) (t2026 + 1) (t2026 + 1)
             sample_store).1 = Raise OverflowError) as Hraise
    by (vm_compute; reflexivity).
  assert (expiry sample_store !! "sess-1" = Some five_minutes_later) as Hexp
    by (vm_compute; reflexivity).
  repeat apply conj; [exact Hraise | exact Hexp |].
  destruct (raising_set_keeps_old_expiry sample_store "sess-1" (JStr "new")
              (10 ^ 12) (t2026 + 1) (t2026 + 1) OverflowError Hraise)
    as (_ & _ & Hget).
  apply (Hget five_minutes_later (t2026 + 2) (t2026 + 2) Hexp);
    unfold five_minutes_later; lia.
Defined.

Lemma nonpositive_ttl_unreadable_witness :
  (set "sess-1" sample_cache_data 0 t2026 t2026 fresh).1 = Return ()
  ∧ (get "sess-1" t2026 t2026
       (set "sess-1" sample_cache_data 0 t2026 t2026 fresh).2).1 = None.
Proof.
  assert ((set "sess-1" sample_cache_data 0 t2026 t2026 fresh).1 = Return ())
    as Hret by (vm_compute; reflexivity).
  split; [exact Hret|].
  apply (nonpositive_ttl_unreadable fresh "sess-1" sample_cache_data 0
           t2026 t2026 t2026 t2026); [lia | exact Hret | lia].
Defined.

Lemma access_sweeps_all_witness :
  "sess-2" ≠ "sess-1"
  ∧ expiry sample_store !! "sess-1" = Some five_minutes_later
  ∧ store (get "sess-2" (five_minutes_later + 1) (five_minutes_later + 1)
             sample_store).2 !! "sess-1" = None.
Proof.
  assert ("sess-2" ≠ "sess-1") as Hne by discriminate.
  assert (expiry sample_store !! "sess-1" = Some five_minutes_later) as Hexp
    by (vm_compute; reflexivity).
  repeat apply conj; [exact Hne | exact Hexp |].
  destruct (access_sweeps_all sample_store "sess-2" "sess-1" sample_cache_data
              300 (five_minutes_later + 1) (five_minutes_later + 1)
              five_minutes_later Hne Hexp) as [Hget _].
  apply Hget. lia.
Defined.

Lemma reachable_unexpired_readable_witness :
  ∃ p, store (run [Set_ "sess-1" sample_cache_data 300 t2026 t2026;
                   Set_ "sess-2" (JStr "new") (10 ^ 12) t2026 t2026]
                __init__) !! "sess-1" = Some p
       ∧ (get "sess-1" (t2026 + 1) (t2026 + 1)
            (run [Set_ "sess-1" sample_cache_data 300 t2026 t2026;
                  Set_ "sess-2" (JStr "new") (10 ^ 12) t2026 t2026]
               __init__)).1 = Some p.
Proof.
  apply (reachable_unexpired_readable
           [Set_ "sess-1" sample_cache_data 300 t2026 t2026;
            Set_ "sess-2" (JStr "new") (10 ^ 12) t2026 t2026]
           "sess-1" five_minutes_later (t2026 + 1) (t2026 + 1)).
  - vm_compute. reflexivity.
  - unfold five_minutes_later. lia.
  - unfold five_minutes_later. lia.
Defined.
End more_runs.

Section more_handler_runs.

Lemma handlers_touch_own_key_witness :
  "sess-2" ≠ "sess-1"
  ∧ (status (env_ok ms2026) "sess-2" sample_db).2 !! cache_key_of "sess-1"
    = sample_db !! cache_key_of "sess-1".
Proof.
  assert ("sess-2" ≠ "sess-1") as Hne by discriminate.
  split; [exact Hne|].
  exact (proj1 (handlers_touch_own_key (lib := sample_lib)
                  "sess-2" "sess-1" sample_db Hne) (env_ok ms2026)).
Defined.

Lemma expired_entry_pending_witness :
  sample_db !! cache_key_of "sess-1" = Some (sample_text, ms2026 + 300000)
  ∧ status (env_ok (ms2026 + 300001)) "sess-1" sample_db
    = (Return pending_body, sample_db)
  ∧ status (env_ok (ms2026 + 300001)) "sess-1"
      (complete (sample_complete_env None) sample_request ∅).2
    = (Return pending_body,
       (complete (sample_complete_env None) sample_request ∅).2).
Proof.
  assert (sample_db !! cache_key_of "sess-1"
          = Some (sample_text, ms2026 + 300000)) as Hentry
    by (vm_compute; reflexivity).
  destruct (expired_entry_pending (lib := sample_lib)
              "sess-1" sample_db (ms2026 + 300001)) as [Hold _].
  destruct (expired_entry_pending (lib := sample_lib)
              "sess-1" ∅ (ms2026 + 300001)) as [_ Hnew].
  repeat apply conj; [exact Hentry | |].
  - apply (Hold sample_text (ms2026 + 300000) Hentry). lia.
  - apply (Hnew (sample_complete_env None) sample_request sample_text);
      [reflexivity | reflexivity | reflexivity |].
    cbn [sample_complete_env setex_now]. lia.
Defined.

Lemma undecodable_entry_stays_witness :
  status (env_ok ms2026) "sess-1" garbled_db
  = (Return (status_error_body
               (JSONDecodeError "Expecting value: line 1 column 1 (char 0)")),
     garbled_db).
Proof.
  apply (undecodable_entry_stays (lib := sample_lib) (env_ok ms2026)
           "sess-1" garbled_db "not json").
  - reflexivity.
  - vm_compute. reflexivity.
  - discriminate.
  - vm_compute. reflexivity.
Defined.

Lemma incomplete_entry_consumed_witness :
  get_extension_auth_status (lib := empty_dict_lib) (env_ok ms2026) "sess-1"
    empty_dict_db
  = (Return (status_error_body (KeyError "clerk_token")),
     base.delete (cache_key_of "sess-1") empty_dict_db).
Proof.
  apply (proj1 (incomplete_entry_consumed (lib := empty_dict_lib) ms2026
                  "sess-1" empty_dict_db "{}" []
                  ltac:(vm_compute; reflexivity) ltac:(discriminate)
                  eq_refl)).
  reflexivity.
Defined.

Lemma empty_text_pending_witness :
  status (env_ok ms2026) "sess-1" empty_text_db
  = (Return pending_body, empty_text_db).
Proof.
  apply (empty_text_pending (lib := sample_lib) (env_ok ms2026) "sess-1"
           empty_text_db (ms2026 + 300000)).
  - reflexivity.
  - vm_compute. reflexivity.
Defined.

Lemma handoff_once_witness :
  (∃ body,
     (status (env_ok (ms2026 + 1000)) "sess-1"
        (complete (sample_complete_env None) sample_request ∅).2).1
     = Return body
     ∧ field "success" body = Some (JBool true)
     ∧ field "result" body
       = Some (JDict [("status", JStr "completed");
                      ("clerk_token", JStr "abc");
                      ("user_data", JDict [("id", JInt 42)])]))
  ∧ (status (env_ok (ms2026 + 2000)) "sess-1"
       (status (env_ok (ms2026 + 1000)) "sess-1"
          (complete (sample_complete_env None) sample_request ∅).2).2).1
    = Return pending_body.
Proof.
  destruct (handoff_once (lib := sample_lib) (sample_complete_env None)
              sample_request ∅ (ms2026 + 1000) (ms2026 + 2000) sample_text
              eq_refl eq_refl ltac:(vm_compute; discriminate)
              ltac:(vm_compute; reflexivity)
              ltac:(vm_compute; discriminate)) as (Hfirst & Hsecond & _).
  split; [exact Hfirst | exact Hsecond].
Defined.
End more_handler_runs.
